(** * detect-window.c: the TCP [window:] rule keyword of the detection engine

    Shallow embedding of [DetectWindowParse], [DetectWindowSetup] and
    [DetectWindowMatch] (src/src/detect-window.c) and proofs of the
    properties of the keyword: what the option parser accepts, what it
    builds, what it frees, and what the per-packet match returns.

    Two things the code depends on are left open, as parameters of the
    definitions: the version of the PCRE library it is linked with
    ([pcre_vt]: whether [\s] matches a vertical tab), and when [malloc]
    runs out of memory ([oom]). *)

From Stdlib Require Import String Ascii ZArith Bool Lia.
From stdpp Require Import base gmap.

Open Scope string_scope.
Open Scope Z_scope.

(* ------------------------------------------------------------------ *)
(** ** Characters and C strings *)

Definition code (c : ascii) : Z := Z.of_nat (nat_of_ascii c).

(** [isspace] of the C locale: space, \t, \n, \v, \f and \r. *)
Definition c_isspace (c : ascii) : bool :=
  let n := code c in
  (n =? 32) || (n =? 9) || (n =? 10) || (n =? 11) || (n =? 12) || (n =? 13).

Definition is_digit (c : ascii) : bool := (48 <=? code c) && (code c <=? 57).

Definition digit_val (c : ascii) : Z := code c - 48.

(** A [char *] is read up to its terminating NUL ([strlen]). *)
Fixpoint cstr (s : string) : string :=
  match s with
  | EmptyString => EmptyString
  | String c s' => if code c =? 0 then EmptyString else String c (cstr s')
  end.

(** [s[0]]: the first character, or the terminating NUL of an empty string. *)
Definition first_char (s : string) : ascii :=
  match s with
  | EmptyString => Ascii.zero
  | String c _ => c
  end.

(* ------------------------------------------------------------------ *)
(** ** [pcre_exec] on [PARSE_REGEX = "^\\s*([!])?\\s*([0-9]{1,9}+)\\s*$"] *)

(** Result of [pcre_exec]: the return code ([PCRE_ERROR_NOMATCH] = -1,
    otherwise one more than the highest group that was set) and the two
    capture groups ([None]: the group did not take part in the match). *)
Record pcre_result := {
  pr_ret : Z;
  pr_group1 : option string;
  pr_group2 : option string
}.

Definition PCRE_ERROR_NOMATCH : Z := -1.

Definition pcre_nomatch : pcre_result :=
  {| pr_ret := PCRE_ERROR_NOMATCH; pr_group1 := None; pr_group2 := None |}.

Section Regex.

(** The library the code is linked with: [\s] is space, \t, \n, \f and
    \r in PCRE before 8.34, and also \v (VT) from PCRE 8.34 on and in
    PCRE2.  Nothing in the sources fixes the version. *)
Context (pcre_vt : bool).

(** The [\s] class. *)
Definition pcre_space (c : ascii) : bool :=
  let n := code c in
  (n =? 32) || (n =? 9) || (n =? 10) || (n =? 12) || (n =? 13) || (pcre_vt && (n =? 11)).

(** [\s*], greedy. *)
Fixpoint skip_ws (s : string) : string :=
  match s with
  | String c s' => if pcre_space c then skip_ws s' else s
  | EmptyString => EmptyString
  end.

(** [[0-9]{0,n}+], possessive: the longest run of at most [n] digits. *)
Fixpoint take_digits (n : nat) (s : string) : string * string :=
  match n, s with
  | O, _ => (EmptyString, s)
  | S n', String c s' =>
      if is_digit c then
        let '(d, r) := take_digits n' s' in (String c d, r)
      else (EmptyString, s)
  | S _, EmptyString => (EmptyString, EmptyString)
  end.

(** The anchored match of [PARSE_REGEX], piece by piece.  Every piece is
    greedy and the pieces match disjoint classes (whitespace, ['!'],
    digits), so backtracking into an earlier piece never produces a match
    that this greedy path misses: giving back whitespace lets no other
    piece take it, and leaving out the ['!'] leaves it in front of the
    digit group.  [{1,9}+] is possessive.  [$] may also match before a
    final newline, which the last [\s*] has already consumed. *)
Definition pcre_exec_parse_regex (subject : string) : pcre_result :=
  let s1 := skip_ws subject in                                (* ^\s* *)
  let '(g1, s2) :=
    match s1 with
    | String c s' => if Ascii.eqb c "!"%char then (Some "!", s') else (None, s1)
    | EmptyString => (None, s1)
    end in                                                    (* ([!])? *)
  let s3 := skip_ws s2 in                                     (* \s* *)
  let '(d, s4) := take_digits 9 s3 in                         (* ([0-9]{1,9}+) *)
  match d, skip_ws s4 with                                    (* \s*$ *)
  | String _ _, EmptyString => {| pr_ret := 3; pr_group1 := g1; pr_group2 := Some d |}
  | _, _ => pcre_nomatch
  end.

End Regex.

(* ------------------------------------------------------------------ *)
(** ** [atoi] *)

Fixpoint digits_acc (acc : Z) (s : string) : Z :=
  match s with
  | String c s' => if is_digit c then digits_acc (10 * acc + digit_val c) s' else acc
  | EmptyString => acc
  end.

Fixpoint skip_isspace (s : string) : string :=
  match s with
  | String c s' => if c_isspace c then skip_isspace s' else s
  | EmptyString => EmptyString
  end.

(** [atoi] = [(int)strtol(s, NULL, 10)]: leading [isspace], an optional
    sign, then decimal digits.  The strings it is given here hold at most
    nine digits, so the [int] never overflows. *)
Definition atoi (s : string) : Z :=
  match skip_isspace s with
  | String c s' =>
      if Ascii.eqb c "-"%char then - digits_acc 0 s'
      else if Ascii.eqb c "+"%char then digits_acc 0 s'
      else digits_acc 0 (String c s')
  | EmptyString => 0
  end.

(* ------------------------------------------------------------------ *)
(** ** detect-window.h *)

(** Modelled from the spec: detect-window.h is not among the sources.
    [DetectWindowData] holds the [uint8_t negated] flag and an unsigned
    [size] (a 32-bit field, wide enough for the [atoi] result that
    [DetectWindowParse] compares against [MAX_WINDOW_VALUE]), and
    [MAX_WINDOW_VALUE] is 65535, the largest 16-bit TCP window. *)
Record DetectWindowData := {
  negated : Z;
  size : Z
}.

Definition MAX_WINDOW_VALUE : Z := 65535.

(** Assignment to the [uint32_t size] field. *)
Definition to_uint32 (v : Z) : Z := v mod 2 ^ 32.

(* ------------------------------------------------------------------ *)
(** ** The heap: [malloc], [free], [pcre_get_substring] *)

Definition ptr := positive.

(** The blocks this code allocates. *)
Inductive block :=
  | BWindowData (wd : DetectWindowData)
  | BSubstring (s : string)
  | BSigMatch.

Abbreviation heap := (gmap ptr block).

(** [free(p)]; [free(NULL)] does nothing. *)
Definition free (p : option ptr) (h : heap) : heap :=
  match p with
  | Some a => delete a h
  | None => h
  end.

(** A write through [wd]. *)
Definition store (p : ptr) (b : block) (h : heap) : heap := <[p := b]> h.

Definition load_wd (h : heap) (p : ptr) : option DetectWindowData :=
  match h !! p with
  | Some (BWindowData wd) => Some wd
  | _ => None
  end.

Section Alloc.

(** Whether [malloc] returns NULL, given the heap at the call.  Every
    allocation of a call below is made in a different heap, so any
    pattern of failures of the calls is one such function. *)
Context (oom : heap -> bool).

(** [malloc]: NULL when memory runs out, otherwise a block that is not
    live. *)
Definition malloc (b : block) (h : heap) : option (ptr * heap) :=
  if oom h then None
  else let p := fresh (dom h) in Some (p, <[p := b]> h).

(** [pcre_get_substring]: a fresh copy of group [n] (a group that did not
    take part in the match gives the empty string), or [None] when its
    [pcre_malloc] fails and it returns [PCRE_ERROR_NOMEMORY] (< 0). *)
Definition pcre_get_substring (r : pcre_result) (n : Z) (h : heap)
  : option (ptr * string) * heap :=
  let g := if n =? 1 then pr_group1 r else pr_group2 r in
  let s := match g with Some s => s | None => EmptyString end in
  match malloc (BSubstring s) h with
  | Some (p, h') => (Some (p, s), h')
  | None => (None, h)
  end.

End Alloc.

(** An allocator that never runs out of memory. *)
Definition never_oom : heap -> bool := fun _ => false.

(* ------------------------------------------------------------------ *)
(** ** [DetectWindowParse] *)

(** The way [DetectWindowParse] leaves: [return wd], or [goto error]
    from the [pcre_exec] check, from one of the out-of-memory checks
    ([wd == NULL], [res < 0] twice), or from the [MAX_WINDOW_VALUE]
    check. *)
Inductive parse_exit :=
  | ExitReturnWd
  | ExitNoMatch
  | ExitNoMem
  | ExitOutOfRange.

(** [for (i = 0; i < n; i++) if (args[i] != NULL) free(args[i]);] *)
Fixpoint free_args (args : list (option ptr)) (n : nat) (h : heap) : heap :=
  match n, args with
  | S n', a :: args' => free_args args' n' (free a h)
  | _, _ => h
  end.

Definition DetectWindowFree (p : option ptr) (h : heap) : heap := free p h.

(** The contents of [malloc(sizeof(DetectWindowData))] before the fields
    are written; [pcre_exec] returns 3 on every match of this pattern, and
    then both fields are written before [wd] is returned. *)
Definition wd_uninit : DetectWindowData := {| negated := 0; size := 0 |}.

Section Parse.

Context (pcre_vt : bool) (oom : heap -> bool).

(** [DetectWindowParse], with the exit it takes.  [args[0]] holds the
    first substring; the second one ([str_ptr]) is never stored in
    [args], so the cleanup loops do not free it. *)
Definition DetectWindowParse_run (windowstr : string) (h0 : heap)
  : parse_exit * option ptr * heap :=
  let r := pcre_exec_parse_regex pcre_vt (cstr windowstr) in
  let ret := pr_ret r in
  let nargs := Z.to_nat (ret - 1) in
  if (ret <? 1) || (ret >? 3) then
    (ExitNoMatch, None, free_args [None; None; None] nargs h0)
  else
    match malloc oom (BWindowData wd_uninit) h0 with
    | None =>
        (* wd == NULL: goto error *)
        (ExitNoMem, None, free_args [None; None; None] nargs h0)
    | Some (wd, h1) =>
        if ret >? 1 then
          match pcre_get_substring oom r 1 h1 with
          | (None, h2) =>
              (* res < 0: goto error, args[0] not yet set *)
              (ExitNoMem, None,
               DetectWindowFree (Some wd) (free_args [None; None; None] nargs h2))
          | (Some (a0, s0), h2) =>
              let neg := if Ascii.eqb (first_char s0) "!"%char then 1 else 0 in
              let d1 := {| negated := neg; size := size wd_uninit |} in
              let h3 := store wd (BWindowData d1) h2 in
              let args := [Some a0; None; None] in
              if ret >? 2 then
                match pcre_get_substring oom r 2 h3 with
                | (None, h4) =>
                    (* res < 0: goto error *)
                    (ExitNoMem, None, DetectWindowFree (Some wd) (free_args args nargs h4))
                | (Some (_, s1), h4) =>
                    let d2 := {| negated := neg; size := to_uint32 (atoi s1) |} in
                    let h5 := store wd (BWindowData d2) h4 in
                    if size d2 >? MAX_WINDOW_VALUE then
                      (ExitOutOfRange, None, DetectWindowFree (Some wd) (free_args args nargs h5))
                    else (ExitReturnWd, Some wd, free_args args nargs h5)
                end
              else (ExitReturnWd, Some wd, free_args args nargs h3)
          end
        else (ExitReturnWd, Some wd, free_args [None; None; None] nargs h1)
    end.

(** [DetectWindowParse] as its caller sees it: a pointer or [NULL]. *)
Definition DetectWindowParse (windowstr : string) (h : heap) : option ptr * heap :=
  let '(_, r, h') := DetectWindowParse_run windowstr h in (r, h').

(** The parsed data behind the returned pointer. *)
Definition parse_result (windowstr : string) (h : heap) : option DetectWindowData :=
  match DetectWindowParse windowstr h with
  | (Some p, h') => load_wd h' p
  | (None, _) => None
  end.

End Parse.

(* ------------------------------------------------------------------ *)
(** ** Signatures and [DetectWindowSetup] *)

(** Modelled from the spec: detect.h is not among the sources.  A
    [SigMatch] has a keyword type and a context; the context of a
    [window] match is the [DetectWindowData] it points to ([None]: a NULL
    [ctx]), which nothing writes after parsing.  A [Signature] has its
    ordered list of matches. *)
Inductive SigMatchType :=
  | DETECT_WINDOW
  | DETECT_OTHER (kw : Z).

Record SigMatch := {
  sm_type : SigMatchType;
  sm_ctx : option DetectWindowData
}.

Record Signature := {
  sig_id : Z;
  sig_match : list SigMatch
}.

(** Modelled from the spec: [SigMatchAlloc] (detect-parse.c, not among
    the sources) allocates an empty node, or returns NULL when [malloc]
    does. *)
Definition SigMatchAlloc (oom : heap -> bool) (h : heap) : option (ptr * heap) :=
  malloc oom BSigMatch h.

(** Modelled from the spec: [SigMatchAppend] (detect-parse.c, not among
    the sources) appends the node to the signature's match list, keeping
    the order in which the rule declares its options. *)
Definition SigMatchAppend (s : Signature) (m : option SigMatch) (sm : SigMatch) : Signature :=
  {| sig_id := sig_id s; sig_match := sig_match s ++ [sm] |}.

Section Setup.

Context (pcre_vt : bool) (oom : heap -> bool) {DetectEngineCtx : Type}.

(** [DetectWindowSetup]: the return code and the signature afterwards. *)
Definition DetectWindowSetup (de_ctx : option DetectEngineCtx) (s : Signature)
    (m : option SigMatch) (windowstr : string) (h0 : heap) : Z * Signature * heap :=
  match DetectWindowParse pcre_vt oom windowstr h0 with
  | (None, h1) =>
      (* goto error: wd and sm are both NULL, nothing to free *)
      (-1, s, h1)
  | (Some wd, h1) =>
      match SigMatchAlloc oom h1 with
      | None =>
          (* sm == NULL: goto error, DetectWindowFree(wd) *)
          (-1, s, DetectWindowFree (Some wd) h1)
      | Some (_, h2) =>
          let sm := {| sm_type := DETECT_WINDOW; sm_ctx := load_wd h2 wd |} in
          (0, SigMatchAppend s m sm, h2)
      end
  end.

End Setup.

(* ------------------------------------------------------------------ *)
(** ** Packets and [DetectWindowMatch] *)

(** Modelled from the spec: decode.h is not among the sources.  A decoded
    packet has a TCP header when it is a TCP segment; the window field is
    the 16-bit [th_win], in host byte order after [ntohs]. *)
Record TCPHdr := {
  th_sport : Z;
  th_dport : Z;
  th_win : Z
}.

Record Packet := {
  pkt_proto : Z;
  tcph : option TCPHdr;
  payload_len : Z
}.

(** [PKT_IS_TCP(p)]: [p->tcph != NULL]. *)
Definition PKT_IS_TCP (p : Packet) : bool :=
  match tcph p with Some _ => true | None => false end.

(** [TCP_GET_WINDOW(p)]: [ntohs(p->tcph->th_win)]; only used once
    [PKT_IS_TCP(p)] holds (the [None] case is not reached). *)
Definition TCP_GET_WINDOW (p : Packet) : Z :=
  match tcph p with Some th => th_win th | None => 0 end.

Section Match.

Context {ThreadVars DetectEngineThreadCtx : Type}.

(** [DetectWindowMatch]: 1 on a match, 0 otherwise. *)
Definition DetectWindowMatch (t : option ThreadVars)
    (det_ctx : option DetectEngineThreadCtx) (p : Packet) (s : option Signature)
    (m : SigMatch) : Z :=
  let ret := 0 in
  match sm_ctx m with
  | Some wd =>
      if negb (PKT_IS_TCP p) then 0
      else if ((negated wd =? 0) && (size wd =? TCP_GET_WINDOW p))
              || (negb (negated wd =? 0) && negb (size wd =? TCP_GET_WINDOW p))
      then 1 else ret
  | None => ret
  end.

End Match.

(* ------------------------------------------------------------------ *)
(** ** The option grammar and the decimal value, as the spec states them *)

Definition is_space (c : ascii) : bool := code c =? 32.

Fixpoint all_chars (f : ascii -> bool) (s : string) : bool :=
  match s with
  | EmptyString => true
  | String c s' => f c && all_chars f s'
  end.

(** [window-option := ws* negation? ws* digits ws*], [negation := "!"],
    [digits := [0-9]{1,9}], for a given class [ws] of whitespace. *)
Definition window_option (ws : ascii -> bool) (s : string) : Prop :=
  exists w1 bang w2 d w3,
    s = (w1 ++ bang ++ w2 ++ d ++ w3)%string /\
    all_chars ws w1 = true /\ (bang = EmptyString \/ bang = "!") /\
    all_chars ws w2 = true /\ all_chars is_digit d = true /\
    (1 <= String.length d <= 9)%nat /\ all_chars ws w3 = true.

(** The decimal value of a digit string. *)
Fixpoint decimal_value (s : string) : Z :=
  match s with
  | EmptyString => 0
  | String c s' => digit_val c * 10 ^ Z.of_nat (String.length s') + decimal_value s'
  end.

(** A digit string of one to nine digits. *)
Definition digit_string (d : string) : Prop :=
  all_chars is_digit d = true /\ (1 <= String.length d <= 9)%nat.

(** Heap blocks holding a [DetectWindowData] after a call were there
    before it. *)
Definition no_new_window_data (h h' : heap) : Prop :=
  forall q wd, h' !! q = Some (BWindowData wd) -> h !! q = Some (BWindowData wd).

(** The TCP segment of the packet fixtures of the unit tests
    (DetectWindowTestPacket01/02): source port 80, destination port
    49335, window field [0x00 0x75] = 117, 408 bytes of payload. *)
Definition fixture_packet : Packet :=
  {| pkt_proto := 6;
     tcph := Some {| th_sport := 80; th_dport := 49335; th_win := 117 |};
     payload_len := 408 |}.

(** The same packet without a TCP header, as a non-TCP packet. *)
Definition fixture_packet_non_tcp : Packet :=
  {| pkt_proto := 17; tcph := None; payload_len := 408 |}.

(* ------------------------------------------------------------------ *)
(** ** The unit tests of detect-window.c *)

Example DetectWindowTestParse01 :
  forall vt, parse_result vt never_oom "35402" ∅ = Some {| negated := 0; size := 35402 |}.
Proof. intros []; vm_compute; reflexivity. Qed.

Example DetectWindowTestParse02 :
  forall vt, parse_result vt never_oom "!35402" ∅ = Some {| negated := 1; size := 35402 |}.
Proof. intros []; vm_compute; reflexivity. Qed.

Example DetectWindowTestParse03 :
  forall vt oom, fst (DetectWindowParse vt oom "" ∅) = None.
Proof. intros [] oom; vm_compute; reflexivity. Qed.

Example DetectWindowTestParse04 :
  forall vt oom, fst (DetectWindowParse vt oom "1235402" ∅) = None.
Proof.
  intros [] oom; unfold DetectWindowParse, DetectWindowParse_run, pcre_get_substring, malloc;
    simpl; destruct (oom _); simpl; try reflexivity;
    destruct (oom _); simpl; try reflexivity; destruct (oom _); reflexivity.
Qed.

Example DetectWindowTestPacket01 :
  DetectWindowMatch (None : option unit) (None : option unit) fixture_packet None
    {| sm_type := DETECT_WINDOW; sm_ctx := parse_result false never_oom "!55455" ∅ |} = 1.
Proof. vm_compute. reflexivity. Qed.

Example DetectWindowTestPacket02 :
  DetectWindowMatch (None : option unit) (None : option unit) fixture_packet None
    {| sm_type := DETECT_WINDOW; sm_ctx := parse_result false never_oom "117" ∅ |} = 1.
Proof. vm_compute. reflexivity. Qed.

(* ------------------------------------------------------------------ *)
(** ** The matcher of [PARSE_REGEX] *)

(** stdpp makes [String.append] [simpl never]; its two equations. *)
Lemma str_app_nil (b : string) : (EmptyString ++ b)%string = b.
Proof. reflexivity. Qed.

Lemma str_app_cons (c : ascii) (a b : string) : (String c a ++ b)%string = String c (a ++ b).
Proof. reflexivity. Qed.

Lemma str_app_assoc (a b c : string) : ((a ++ b) ++ c)%string = (a ++ b ++ c)%string.
Proof. induction a as [|x a IH]; rewrite ?str_app_nil, ?str_app_cons; congruence. Qed.

Lemma str_app_nil_r (s : string) : (s ++ EmptyString)%string = s.
Proof. induction s as [|c s IH]; rewrite ?str_app_nil, ?str_app_cons; congruence. Qed.

Lemma all_chars_app f (a b : string) :
  all_chars f (a ++ b)%string = all_chars f a && all_chars f b.
Proof.
  induction a as [|x a IH]; rewrite ?str_app_nil, ?str_app_cons; simpl;
    [reflexivity | now rewrite IH, andb_assoc].
Qed.

Section Matcher.

Context (vt : bool).

Lemma skip_ws_split (s : string) :
  exists w, s = (w ++ skip_ws vt s)%string /\ all_chars (pcre_space vt) w = true.
Proof.
  induction s as [|c s IH]; simpl.
  - now exists EmptyString.
  - destruct (pcre_space vt c) eqn:Hc.
    + destruct IH as [w [Hs Hw]]. exists (String c w).
      rewrite str_app_cons, <- Hs. simpl. now rewrite Hc, Hw.
    + now exists EmptyString.
Qed.

Lemma skip_ws_empty (s : string) :
  skip_ws vt s = EmptyString -> all_chars (pcre_space vt) s = true.
Proof.
  intros H. destruct (skip_ws_split s) as [w [Hs Hw]]. rewrite H in Hs.
  rewrite Hs, str_app_nil_r. exact Hw.
Qed.

Lemma skip_ws_all (w : string) :
  all_chars (pcre_space vt) w = true -> skip_ws vt w = EmptyString.
Proof.
  induction w as [|x w IH]; intros Hw; [reflexivity|].
  simpl in *. apply andb_true_iff in Hw as [Hx Hw]. rewrite Hx. now apply IH.
Qed.

Lemma skip_ws_app_ws (w r : string) :
  all_chars (pcre_space vt) w = true -> skip_ws vt (w ++ r) = skip_ws vt r.
Proof.
  induction w as [|c w IH]; intros Hw; rewrite ?str_app_nil, ?str_app_cons; [reflexivity|].
  simpl in Hw. apply andb_true_iff in Hw as [Hc Hw]. simpl. rewrite Hc. now apply IH.
Qed.

End Matcher.

Lemma take_digits_split (n : nat) (s d r : string) :
  take_digits n s = (d, r) ->
  s = (d ++ r)%string /\ all_chars is_digit d = true /\ (String.length d <= n)%nat.
Proof.
  revert s d r. induction n as [|n IH]; intros s d r H; simpl in H.
  - injection H as <- <-. simpl. split; [reflexivity | split; [reflexivity | lia]].
  - destruct s as [|c s].
    + injection H as <- <-. simpl. split; [reflexivity | split; [reflexivity | lia]].
    + destruct (is_digit c) eqn:Hc.
      * destruct (take_digits n s) as [d' r'] eqn:Ht. injection H as <- <-.
        destruct (IH _ _ _ Ht) as [-> [Hd Hl]]. simpl. rewrite Hc, Hd.
        split; [reflexivity | split; [reflexivity | lia]].
      * injection H as <- <-. simpl. split; [reflexivity | split; [reflexivity | lia]].
Qed.

(** [pcre_exec] on this pattern either fails with [PCRE_ERROR_NOMATCH]
    or returns 3 with the digit group set and the negation group unset or
    equal to ["!"]; in the second case the subject is in the grammar with
    the [\s] class as whitespace. *)
Lemma pcre_exec_parse_regex_cases (vt : bool) (x : string) :
  pcre_exec_parse_regex vt x = pcre_nomatch \/
  exists g1 d,
    pcre_exec_parse_regex vt x = {| pr_ret := 3; pr_group1 := g1; pr_group2 := Some d |} /\
    (g1 = None \/ g1 = Some "!") /\ digit_string d /\ window_option (pcre_space vt) x.
Proof.
  unfold pcre_exec_parse_regex.
  destruct (skip_ws_split vt x) as [w1 [Hx Hw1]].
  set (s1 := skip_ws vt x) in *.
  assert (Hbang : exists g1 bang s2,
             (let '(g, s2') := match s1 with
                               | String c s' => if Ascii.eqb c "!"%char then (Some "!", s') else (None, s1)
                               | EmptyString => (None, s1)
                               end in (g, s2')) = (g1, s2) /\
             s1 = (bang ++ s2)%string /\ (g1 = None \/ g1 = Some "!") /\
             (bang = EmptyString \/ bang = "!")).
  { destruct s1 as [|c s'].
    - exists None, EmptyString, EmptyString. auto.
    - destruct (Ascii.eqb c "!"%char) eqn:Hc.
      + apply Ascii.eqb_eq in Hc. subst c.
        exists (Some "!"), "!", s'. auto.
      + exists None, EmptyString, (String c s'). auto. }
  destruct Hbang as [g1 [bang [s2 [Hm [Hs1 [Hg1 Hb]]]]]].
  destruct (match s1 with
            | String c s' => if Ascii.eqb c "!"%char then (Some "!", s') else (None, s1)
            | EmptyString => (None, s1)
            end) as [g s2'] eqn:E.
  injection Hm as -> ->.
  destruct (skip_ws_split vt s2) as [w2 [Hs2 Hw2]].
  destruct (take_digits 9 (skip_ws vt s2)) as [d s4] eqn:Ht.
  destruct (take_digits_split _ _ _ _ Ht) as [Hs3 [Hd Hl]].
  destruct d as [|c d']; [now left|].
  destruct (skip_ws vt s4) eqn:Hs4; [|now left].
  right. exists g1, (String c d'). split; [reflexivity|]. split; [exact Hg1|].
  split; [split; [exact Hd | simpl in *; lia]|].
  exists w1, bang, w2, (String c d'), s4.
  split.
  - rewrite Hx, Hs1, Hs2, Hs3. reflexivity.
  - split; [exact Hw1|]. split; [exact Hb|]. split; [exact Hw2|].
    split; [exact Hd|]. split; [simpl in *; lia|]. now apply skip_ws_empty.
Qed.

(* ------------------------------------------------------------------ *)
(** ** The runs of [DetectWindowParse] *)

Lemma DetectWindowParse_run_nomatch (vt : bool) (oom : heap -> bool) (s : string) (h : heap) :
  pcre_exec_parse_regex vt (cstr s) = pcre_nomatch ->
  DetectWindowParse_run vt oom s h = (ExitNoMatch, None, h).
Proof. intros H. unfold DetectWindowParse_run. rewrite H. reflexivity. Qed.

Lemma fresh_lookup (h : heap) : h !! fresh (dom h) = None.
Proof. apply not_elem_of_dom, is_fresh. Qed.

Lemma fresh_insert_ne (h : heap) (p : ptr) (b : block) :
  fresh (dom (<[p := b]> h)) <> p.
Proof.
  intros E. pose proof (fresh_lookup (<[p := b]> h)) as Hn.
  rewrite E, lookup_insert_eq in Hn. discriminate.
Qed.

Lemma fresh_three (h : heap) (b0 b1 : block) (g : string) :
  let wd := fresh (dom h) in
  let a0 := fresh (dom (<[wd := b0]> h)) in
  let a1 := fresh (dom (<[wd := b1]> (<[a0 := BSubstring g]> (<[wd := b0]> h)))) in
  a0 <> wd /\ a1 <> wd /\ a1 <> a0 /\ h !! wd = None /\ h !! a0 = None /\ h !! a1 = None.
Proof.
  intros wd a0 a1.
  assert (Ha0 : a0 <> wd) by apply fresh_insert_ne.
  assert (Ha1 : a1 <> wd) by apply fresh_insert_ne.
  assert (Hwd : h !! wd = None) by apply fresh_lookup.
  assert (Ha0h : h !! a0 = None).
  { pose proof (fresh_lookup (<[wd := b0]> h)) as F. fold a0 in F.
    now rewrite lookup_insert_ne in F by congruence. }
  assert (Ha10 : a1 <> a0).
  { intros E. pose proof (fresh_lookup (<[wd := b1]> (<[a0 := BSubstring g]> (<[wd := b0]> h))))
      as F. fold a1 in F. rewrite E in F.
    rewrite lookup_insert_ne, lookup_insert_eq in F by congruence. discriminate. }
  assert (Ha1h : h !! a1 = None).
  { pose proof (fresh_lookup (<[wd := b1]> (<[a0 := BSubstring g]> (<[wd := b0]> h)))) as F.
    fold a1 in F. now rewrite !lookup_insert_ne in F by congruence. }
  repeat split; assumption.
Qed.

(** A matched run: it runs out of memory and leaves the heap as it was,
    or it allocates [wd] and the two substrings and leaves the new
    [DetectWindowData] (on success) and the copy of the digit group,
    which is never freed.  With an allocator that never fails, it does
    not run out of memory. *)
Lemma DetectWindowParse_run_match_heap (vt : bool) (oom : heap -> bool)
    (s : string) (h : heap) g1 d :
  pcre_exec_parse_regex vt (cstr s) =
    {| pr_ret := 3; pr_group1 := g1; pr_group2 := Some d |} ->
  forall neg v,
  neg = (if Ascii.eqb (first_char (match g1 with Some x => x | None => EmptyString end)) "!"%char
         then 1 else 0) ->
  v = to_uint32 (atoi d) ->
  exists wd a1, wd <> a1 /\ h !! wd = None /\ h !! a1 = None /\
  (DetectWindowParse_run vt oom s h = (ExitNoMem, None, h) \/
   (v <= MAX_WINDOW_VALUE /\
    DetectWindowParse_run vt oom s h =
      (ExitReturnWd, Some wd,
       <[wd := BWindowData {| negated := neg; size := v |}]> (<[a1 := BSubstring d]> h))) \/
   (MAX_WINDOW_VALUE < v /\
    DetectWindowParse_run vt oom s h = (ExitOutOfRange, None, <[a1 := BSubstring d]> h))) /\
  ((forall h', oom h' = false) -> DetectWindowParse_run vt oom s h <> (ExitNoMem, None, h)).
Proof.
  intros H neg v Hneg Hv0.
  set (g := match g1 with Some x => x | None => EmptyString end) in *.
  destruct (fresh_three h (BWindowData wd_uninit) (BWindowData {| negated := neg; size := 0 |}) g)
    as [Ha0 [Ha1 [Ha10 [Hwd [Ha0h Ha1h]]]]].
  set (wd := fresh (dom h)) in *.
  set (h1 := <[wd := BWindowData wd_uninit]> h) in *.
  set (a0 := fresh (dom h1)) in *.
  set (h3 := <[wd := BWindowData {| negated := neg; size := 0 |}]> (<[a0 := BSubstring g]> h1)) in *.
  set (a1 := fresh (dom h3)) in *.
  exists wd, a1. split; [congruence|]. split; [exact Hwd|]. split; [exact Ha1h|].
  unfold DetectWindowParse_run, pcre_get_substring, malloc, store.
  rewrite H. cbn -[fresh dom insert delete lookup].
  change (Z.to_nat (3 - 1)) with 2%nat. simpl free_args.
  destruct (oom h) eqn:E0.
  { split; [now left|]. intros Hm. now rewrite Hm in E0. }
  cbn -[fresh dom insert delete lookup]. fold wd h1.
  destruct (oom h1) eqn:E1.
  { split; [left|intros Hm; now rewrite Hm in E1].
    do 2 f_equal. apply map_eq. intros i. unfold h1.
    rewrite lookup_delete. case_decide; subst; [now rewrite Hwd|].
    now rewrite lookup_insert_ne. }
  cbn -[fresh dom insert delete lookup]. fold a0 g. rewrite <- Hneg. fold h3.
  destruct (oom h3) eqn:E3.
  { split; [left|intros Hm; now rewrite Hm in E3].
    do 2 f_equal. apply map_eq. intros i. unfold h3, h1.
    rewrite !lookup_delete, !lookup_insert.
    repeat case_decide; subst; try congruence; rewrite ?lookup_insert;
      repeat case_decide; congruence. }
  cbn -[fresh dom insert delete lookup]. fold a1. rewrite <- Hv0.
  split; [right|intros _; destruct (v >? MAX_WINDOW_VALUE); discriminate].
  destruct (v >? MAX_WINDOW_VALUE) eqn:Hc.
  - right. split; [lia|]. do 2 f_equal.
    apply map_eq. intros i. unfold h3, h1.
    rewrite !lookup_delete, !lookup_insert.
    repeat case_decide; subst; congruence.
  - left. split; [lia|]. do 2 f_equal.
    apply map_eq. intros i. unfold h3, h1.
    rewrite !lookup_delete, !lookup_insert.
    repeat case_decide; subst; try congruence; rewrite ?lookup_delete, ?lookup_insert;
      repeat case_decide; congruence.
Qed.

(* ------------------------------------------------------------------ *)
(** ** Digit strings *)

Lemma digit_code (c : ascii) : is_digit c = true -> 48 <= code c <= 57.
Proof.
  unfold is_digit. intros H. apply andb_true_iff in H as [H1 H2].
  apply Z.leb_le in H1. apply Z.leb_le in H2. lia.
Qed.

Lemma digit_not_space (vt : bool) (c : ascii) :
  is_digit c = true -> pcre_space vt c = false /\ c_isspace c = false.
Proof.
  intros H. apply digit_code in H. unfold pcre_space, c_isspace. cbv zeta.
  rewrite !(proj2 (Z.eqb_neq _ _)) by lia. destruct vt; split; reflexivity.
Qed.

Lemma digit_not_bang (c : ascii) : is_digit c = true -> Ascii.eqb c "!"%char = false.
Proof. intros Hc. apply Ascii.eqb_neq. intros ->. vm_compute in Hc. discriminate. Qed.

Lemma take_digits_all (n : nat) (d : string) :
  all_chars is_digit d = true -> (String.length d <= n)%nat ->
  take_digits n d = (d, EmptyString).
Proof.
  revert n. induction d as [|c d IH]; intros n Hd Hl.
  - destruct n; reflexivity.
  - destruct n as [|n]; simpl in Hl; [lia|].
    simpl in Hd. apply andb_true_iff in Hd as [Hc Hd].
    simpl. rewrite Hc, (IH n Hd ltac:(lia)). reflexivity.
Qed.

Lemma cstr_digits (d : string) : all_chars is_digit d = true -> cstr d = d.
Proof.
  induction d as [|c d IH]; simpl; intros Hd; [reflexivity|].
  apply andb_true_iff in Hd as [Hc Hd]. apply digit_code in Hc.
  destruct (code c =? 0) eqn:E; [apply Z.eqb_eq in E; lia|]. now rewrite IH.
Qed.


Lemma digits_acc_value (acc : Z) (d : string) :
  all_chars is_digit d = true ->
  digits_acc acc d = acc * 10 ^ Z.of_nat (String.length d) + decimal_value d.
Proof.
  revert acc. induction d as [|c d IH]; intros acc Hd; simpl; [lia|].
  simpl in Hd. apply andb_true_iff in Hd as [Hc Hd]. rewrite Hc, IH by exact Hd.
  rewrite Nat2Z.inj_succ, Z.pow_succ_r by lia. unfold digit_val. lia.
Qed.

Lemma decimal_value_bounds (d : string) :
  all_chars is_digit d = true ->
  0 <= decimal_value d < 10 ^ Z.of_nat (String.length d).
Proof.
  induction d as [|c d IH]; intros Hd; simpl; [lia|].
  simpl in Hd. apply andb_true_iff in Hd as [Hc Hd]. apply digit_code in Hc.
  specialize (IH Hd). rewrite Nat2Z.inj_succ, Z.pow_succ_r by lia.
  unfold digit_val. nia.
Qed.

Lemma atoi_digits (d : string) : digit_string d -> atoi d = decimal_value d.
Proof.
  intros [Hd Hl]. destruct d as [|c d']; simpl in Hl; [lia|].
  pose proof Hd as Hd'. simpl in Hd'. apply andb_true_iff in Hd' as [Hc _].
  unfold atoi. simpl. rewrite (proj2 (digit_not_space false c Hc)).
  pose proof (digit_code c Hc) as Hcc.
  destruct (Ascii.eqb c "-"%char) eqn:E1.
  { apply Ascii.eqb_eq in E1. subst c. change (code "-"%char) with 45 in Hcc. lia. }
  destruct (Ascii.eqb c "+"%char) eqn:E2.
  { apply Ascii.eqb_eq in E2. subst c. change (code "+"%char) with 43 in Hcc. lia. }
  simpl in Hd. apply andb_true_iff in Hd as [_ Hd].
  rewrite Hc, digits_acc_value by exact Hd. simpl. lia.
Qed.

Lemma to_uint32_small (v : Z) : 0 <= v < 2 ^ 32 -> to_uint32 v = v.
Proof. intros H. unfold to_uint32. now apply Z.mod_small. Qed.

Lemma digit_string_uint32 (d : string) :
  digit_string d -> to_uint32 (atoi d) = decimal_value d.
Proof.
  intros Hds. rewrite atoi_digits by exact Hds. destruct Hds as [Hd Hl].
  pose proof (decimal_value_bounds d Hd) as Hb.
  assert (10 ^ Z.of_nat (String.length d) <= 10 ^ 9)
    by (apply Z.pow_le_mono_r; lia).
  apply to_uint32_small. lia.
Qed.

(* ------------------------------------------------------------------ *)
(** ** The texts of the grammar *)

Lemma skip_ws_digit_start (vt : bool) (c : ascii) (r : string) :
  is_digit c = true -> skip_ws vt (String c r) = String c r.
Proof. intros Hc. simpl. now rewrite (proj1 (digit_not_space vt c Hc)). Qed.

Lemma take_digits_app_ws (vt : bool) (n : nat) (d w : string) :
  all_chars is_digit d = true -> (String.length d <= n)%nat ->
  all_chars (pcre_space vt) w = true ->
  take_digits n (d ++ w) = (d, w).
Proof.
  revert n. induction d as [|c d IH]; intros n Hd Hl Hw.
  - rewrite str_app_nil. destruct n as [|n]; [reflexivity|].
    destruct w as [|c w]; [reflexivity|].
    simpl in Hw. apply andb_true_iff in Hw as [Hc _]. simpl.
    destruct (is_digit c) eqn:Hdc; [|reflexivity].
    rewrite (proj1 (digit_not_space vt c Hdc)) in Hc. discriminate.
  - destruct n as [|n]; simpl in Hl; [lia|].
    simpl in Hd. apply andb_true_iff in Hd as [Hc Hd].
    rewrite str_app_cons. simpl. rewrite Hc, (IH n Hd ltac:(lia) Hw). reflexivity.
Qed.

Lemma take_digits_long (n : nat) (d w : string) :
  all_chars is_digit d = true -> (n < String.length d)%nat ->
  exists d9 c r, take_digits n (d ++ w) = (d9, String c r) /\ is_digit c = true.
Proof.
  revert d. induction n as [|n IH]; intros d Hd Hl.
  - destruct d as [|c d]; simpl in Hl; [lia|].
    simpl in Hd. apply andb_true_iff in Hd as [Hc _].
    exists EmptyString, c, (d ++ w)%string. rewrite str_app_cons. now split.
  - destruct d as [|c d]; simpl in Hl; [lia|].
    simpl in Hd. apply andb_true_iff in Hd as [Hc Hd].
    destruct (IH d Hd ltac:(lia)) as [d9 [c' [r [Ht Hc']]]].
    exists (String c d9), c', r. rewrite str_app_cons. simpl. rewrite Hc, Ht. now split.
Qed.

(** Every text of the grammar (with [\s] as whitespace) is matched, with
    the digit run as group 2 and the ['!'] (if any) as group 1. *)
Lemma pcre_exec_grammar (vt : bool) (w1 bang w2 d w3 : string) :
  all_chars (pcre_space vt) w1 = true -> (bang = EmptyString \/ bang = "!") ->
  all_chars (pcre_space vt) w2 = true -> digit_string d ->
  all_chars (pcre_space vt) w3 = true ->
  pcre_exec_parse_regex vt (w1 ++ bang ++ w2 ++ d ++ w3) =
    {| pr_ret := 3;
       pr_group1 := if String.eqb bang "!" then Some "!" else None;
       pr_group2 := Some d |}.
Proof.
  intros Hw1 Hb Hw2 [Hd Hl] Hw3.
  destruct d as [|c d']; [simpl in Hl; lia|].
  pose proof Hd as Hc. simpl in Hc. apply andb_true_iff in Hc as [Hc _].
  assert (Hs3 : skip_ws vt (w2 ++ String c d' ++ w3) = String c (d' ++ w3)).
  { rewrite skip_ws_app_ws by exact Hw2. rewrite str_app_cons.
    now apply skip_ws_digit_start. }
  assert (Ht : take_digits 9 (String c d' ++ w3) = (String c d', w3)).
  { apply (take_digits_app_ws vt); [exact Hd | lia | exact Hw3]. }
  rewrite str_app_cons in Ht.
  unfold pcre_exec_parse_regex. rewrite skip_ws_app_ws by exact Hw1.
  destruct Hb as [-> | ->].
  - rewrite str_app_nil, Hs3. cbv beta iota.
    rewrite (digit_not_bang c Hc). cbv beta iota.
    rewrite skip_ws_digit_start by exact Hc.
    rewrite Ht, skip_ws_all by exact Hw3. reflexivity.
  - rewrite str_app_cons, str_app_nil. simpl skip_ws at 1.
    replace (pcre_space vt "!"%char) with false by (destruct vt; reflexivity). cbv iota.
    change (Ascii.eqb "!"%char "!"%char) with true. cbv iota.
    rewrite Hs3, Ht, skip_ws_all by exact Hw3. reflexivity.
Qed.

(** After the leading whitespace and ['!'], a run of ten or more digits
    leaves a digit the possessive [{1,9}+] cannot take and [\s*$] cannot
    skip: no match, whatever follows. *)
Lemma pcre_exec_long_digits (vt : bool) (w1 bang w2 d w : string) :
  all_chars (pcre_space vt) w1 = true -> (bang = EmptyString \/ bang = "!") ->
  all_chars (pcre_space vt) w2 = true -> all_chars is_digit d = true ->
  (9 < String.length d)%nat ->
  pcre_exec_parse_regex vt (w1 ++ bang ++ w2 ++ d ++ w) = pcre_nomatch.
Proof.
  intros Hw1 Hb Hw2 Hd Hl.
  destruct d as [|c d']; [simpl in Hl; lia|].
  pose proof Hd as Hc. simpl in Hc. apply andb_true_iff in Hc as [Hc _].
  assert (Hs3 : skip_ws vt (w2 ++ String c d' ++ w) = String c (d' ++ w)).
  { rewrite skip_ws_app_ws by exact Hw2. rewrite str_app_cons.
    now apply skip_ws_digit_start. }
  destruct (take_digits_long 9 (String c d') w Hd Hl) as [d9 [c' [r [Ht Hc']]]].
  rewrite str_app_cons in Ht.
  unfold pcre_exec_parse_regex. rewrite skip_ws_app_ws by exact Hw1.
  destruct Hb as [-> | ->].
  - rewrite str_app_nil, Hs3. cbv beta iota.
    rewrite (digit_not_bang c Hc). cbv beta iota.
    rewrite skip_ws_digit_start by exact Hc.
    rewrite Ht, skip_ws_digit_start by exact Hc'. destruct d9; reflexivity.
  - rewrite str_app_cons, str_app_nil. simpl skip_ws at 1.
    replace (pcre_space vt "!"%char) with false by (destruct vt; reflexivity). cbv iota.
    change (Ascii.eqb "!"%char "!"%char) with true. cbv iota.
    rewrite Hs3, Ht, skip_ws_digit_start by exact Hc'. destruct d9; reflexivity.
Qed.

(** A text in the grammar is matched by [pcre_exec]. *)
Lemma window_option_matched (vt : bool) (x : string) :
  window_option (pcre_space vt) x -> pr_ret (pcre_exec_parse_regex vt x) = 3.
Proof.
  intros [w1 [bang [w2 [d [w3 [-> [Hw1 [Hb [Hw2 [Hd [Hl Hw3]]]]]]]]]]].
  rewrite (pcre_exec_grammar vt w1 bang w2 d w3 Hw1 Hb Hw2 (conj Hd Hl) Hw3). reflexivity.
Qed.

Lemma load_wd_insert (m : heap) (p : ptr) (wd : DetectWindowData) :
  load_wd (<[p := BWindowData wd]> m) p = Some wd.
Proof. unfold load_wd. now rewrite lookup_insert_eq. Qed.

(** A run on a text of the grammar, by the outcome of its allocations. *)
Lemma parse_run_grammar (vt : bool) (oom : heap -> bool) (s : string) (h : heap)
    (w1 bang w2 d w3 : string) :
  cstr s = (w1 ++ bang ++ w2 ++ d ++ w3)%string ->
  all_chars (pcre_space vt) w1 = true -> (bang = EmptyString \/ bang = "!") ->
  all_chars (pcre_space vt) w2 = true -> digit_string d ->
  all_chars (pcre_space vt) w3 = true ->
  exists wd a1, wd <> a1 /\ h !! wd = None /\ h !! a1 = None /\
  (DetectWindowParse_run vt oom s h = (ExitNoMem, None, h) \/
   (decimal_value d <= MAX_WINDOW_VALUE /\
    DetectWindowParse_run vt oom s h =
      (ExitReturnWd, Some wd,
       <[wd := BWindowData {| negated := if String.eqb bang "!" then 1 else 0;
                              size := decimal_value d |}]> (<[a1 := BSubstring d]> h))) \/
   (MAX_WINDOW_VALUE < decimal_value d /\
    DetectWindowParse_run vt oom s h = (ExitOutOfRange, None, <[a1 := BSubstring d]> h))) /\
  ((forall h', oom h' = false) -> DetectWindowParse_run vt oom s h <> (ExitNoMem, None, h)).
Proof.
  intros Hcs Hw1 Hb Hw2 Hd Hw3.
  assert (Hm : pcre_exec_parse_regex vt (cstr s) =
                 {| pr_ret := 3;
                    pr_group1 := if String.eqb bang "!" then Some "!" else None;
                    pr_group2 := Some d |})
    by (rewrite Hcs; now apply pcre_exec_grammar).
  assert (Hneg : (if String.eqb bang "!" then 1 else 0) =
                 (if Ascii.eqb (first_char (match (if String.eqb bang "!" then Some "!" else None)
                                            with Some x => x | None => EmptyString end)) "!"%char
                  then 1 else 0))
    by (destruct Hb as [-> | ->]; reflexivity).
  exact (DetectWindowParse_run_match_heap vt oom s h _ _ Hm _ _ Hneg
           (eq_sym (digit_string_uint32 d Hd))).
Qed.

Lemma parse_result_run (vt : bool) (oom : heap -> bool) (s : string) (h : heap) :
  parse_result vt oom s h =
    match DetectWindowParse_run vt oom s h with
    | (_, Some p, h') => load_wd h' p
    | (_, None, _) => None
    end.
Proof.
  unfold parse_result, DetectWindowParse.
  destruct (DetectWindowParse_run vt oom s h) as [[e [p|]] h']; reflexivity.
Qed.

(** The grammar texts of value at most [MAX_WINDOW_VALUE] parse, when no
    allocation fails. *)
Lemma parse_result_grammar (vt : bool) (oom : heap -> bool) (s : string) (h : heap)
    (w1 bang w2 d w3 : string) :
  (forall h', oom h' = false) ->
  cstr s = (w1 ++ bang ++ w2 ++ d ++ w3)%string ->
  all_chars (pcre_space vt) w1 = true -> (bang = EmptyString \/ bang = "!") ->
  all_chars (pcre_space vt) w2 = true -> digit_string d ->
  all_chars (pcre_space vt) w3 = true ->
  decimal_value d <= MAX_WINDOW_VALUE ->
  parse_result vt oom s h = Some {| negated := if String.eqb bang "!" then 1 else 0;
                                    size := decimal_value d |}.
Proof.
  intros Hmem Hcs Hw1 Hb Hw2 Hd Hw3 Hv. rewrite parse_result_run.
  destruct (parse_run_grammar vt oom s h w1 bang w2 d w3 Hcs Hw1 Hb Hw2 Hd Hw3)
    as [wd [a [_ [_ [_ [[Hr | [[_ Hr] | [Hv' _]]] Hnm]]]]]].
  - now contradiction (Hnm Hmem).
  - rewrite Hr. apply load_wd_insert.
  - lia.
Qed.

(** A successful parse: the heap it leaves. *)
Lemma parse_success_heap (vt : bool) (oom : heap -> bool) (s : string) (h : heap) (p : ptr) :
  fst (DetectWindowParse vt oom s h) = Some p ->
  exists wd a d, p <> a /\ h !! p = None /\ h !! a = None /\
    pr_group2 (pcre_exec_parse_regex vt (cstr s)) = Some d /\
    snd (DetectWindowParse vt oom s h) = <[p := BWindowData wd]> (<[a := BSubstring d]> h).
Proof.
  unfold DetectWindowParse. intros Hp.
  destruct (pcre_exec_parse_regex_cases vt (cstr s)) as [Hn | [g1 [d [Hm _]]]].
  { rewrite (DetectWindowParse_run_nomatch vt oom s h Hn) in Hp. discriminate. }
  destruct (DetectWindowParse_run_match_heap vt oom s h g1 d Hm _ (to_uint32 (atoi d))
              eq_refl eq_refl)
    as [wd [a [Hne [Hwd [Ha [[Hr | [[_ Hr] | [_ Hr]]] _]]]]]]; rewrite Hr in Hp |- *;
    try discriminate.
  injection Hp as <-. eexists _, a, d. rewrite Hm. repeat split; assumption.
Qed.

(* ------------------------------------------------------------------ *)
(** ** [DetectWindowSetup] after a successful parse *)

Lemma setup_success_helper {E : Type} (vt : bool) (oom : heap -> bool)
    (de_ctx : option E) (sg : Signature)
    (m : option SigMatch) (windowstr : string) (h : heap) (wd : DetectWindowData) :
  (forall h', oom h' = false) ->
  parse_result vt oom windowstr h = Some wd ->
  fst (fst (DetectWindowSetup vt oom de_ctx sg m windowstr h)) = 0 /\
  snd (fst (DetectWindowSetup vt oom de_ctx sg m windowstr h)) =
    {| sig_id := sig_id sg;
       sig_match := sig_match sg ++ [{| sm_type := DETECT_WINDOW; sm_ctx := Some wd |}] |}.
Proof.
  intros Hmem. unfold parse_result, DetectWindowSetup, SigMatchAlloc, malloc.
  destruct (DetectWindowParse vt oom windowstr h) as [[p|] h1]; [|discriminate].
  intros Hl. rewrite Hmem. simpl. split; [reflexivity|].
  assert (Hne : fresh (dom h1) <> p).
  { intros E'. pose proof (fresh_lookup h1) as F. rewrite E' in F.
    unfold load_wd in Hl. rewrite F in Hl. discriminate. }
  unfold load_wd in *. rewrite lookup_insert_ne by congruence. now rewrite Hl.
Qed.

(* ------------------------------------------------------------------ *)
(** ** The option parser *)



(** C4, as stated, fails: when [malloc] returns NULL, a digit string of
    value above [MAX_WINDOW_VALUE] leaves at the out-of-memory check,
    before the range check. *)
Lemma DetectWindowParse_out_of_range_oom_counterexample :
  digit_string "1235402" /\ MAX_WINDOW_VALUE < decimal_value "1235402" /\
  fst (fst (DetectWindowParse_run false (fun _ => true) "1235402" ∅)) = ExitNoMem /\
  fst (fst (DetectWindowParse_run true (fun _ => true) "1235402" ∅)) = ExitNoMem.
Proof.
  split; [split; [reflexivity | simpl; lia]|].
  split; [vm_compute; reflexivity|]. split; vm_compute; reflexivity.
Qed.

(** C4 (amended): a digit string of one to nine digits whose value
    exceeds [MAX_WINDOW_VALUE] makes the parser return NULL; when no
    allocation fails, it is rejected by the range check. *)
Theorem DetectWindowParse_out_of_range (vt : bool) (oom : heap -> bool) (d : string) (h : heap) :
  digit_string d -> MAX_WINDOW_VALUE < decimal_value d ->
  fst (DetectWindowParse vt oom d h) = None /\
  ((forall h', oom h' = false) -> fst (fst (DetectWindowParse_run vt oom d h)) = ExitOutOfRange).
Proof.
  intros Hd Hv.
  destruct (parse_run_grammar vt oom d h EmptyString EmptyString EmptyString d EmptyString
              ltac:(rewrite !str_app_nil, str_app_nil_r; exact (cstr_digits d (proj1 Hd)))
              eq_refl (or_introl eq_refl) eq_refl Hd eq_refl)
    as [wd [a [_ [_ [_ [[Hr | [[Hv' _] | [_ Hr]]] Hnm]]]]]]; [| lia |].
  - unfold DetectWindowParse. rewrite Hr. split; [reflexivity|].
    intros Hmem. now contradiction (Hnm Hmem).
  - unfold DetectWindowParse. rewrite Hr. split; reflexivity.
Qed.

(** C6: a successful parse yields [0 <= size <= MAX_WINDOW_VALUE] and a
    [negated] flag equal to 0 or 1. *)
Theorem DetectWindowParse_result_range (vt : bool) (oom : heap -> bool) (s : string) (h : heap)
    (wd : DetectWindowData) :
  parse_result vt oom s h = Some wd ->
  0 <= size wd <= MAX_WINDOW_VALUE /\ (negated wd = 0 \/ negated wd = 1).
Proof.
  rewrite parse_result_run. intros Hp.
  destruct (pcre_exec_parse_regex_cases vt (cstr s)) as [Hn | [g1 [d [Hm _]]]].
  - rewrite (DetectWindowParse_run_nomatch vt oom s h Hn) in Hp. discriminate.
  - destruct (DetectWindowParse_run_match_heap vt oom s h g1 d Hm _ (to_uint32 (atoi d))
                eq_refl eq_refl)
      as [p [a [_ [_ [_ [[Hr | [[Hv Hr] | [_ Hr]]] _]]]]]]; rewrite Hr in Hp;
      try discriminate.
    rewrite load_wd_insert in Hp. injection Hp as <-. simpl. split.
    + split; [unfold to_uint32; apply Z.mod_pos_bound; lia | exact Hv].
    + destruct (Ascii.eqb _ _); auto.
Qed.

Lemma window_option_nonempty (ws : ascii -> bool) (s : string) :
  window_option ws s -> s <> EmptyString.
Proof.
  intros [w1 [bang [w2 [d [w3 [E [_ [Hb [_ [_ [Hl _]]]]]]]]]]] ->.
  destruct d as [|c d]; [simpl in Hl; lia|].
  destruct w1; [rewrite str_app_nil in E | discriminate].
  destruct Hb as [-> | ->]; [rewrite str_app_nil in E | discriminate].
  destruct w2; [rewrite str_app_nil in E | discriminate].
  discriminate.
Qed.

(** C5, as stated, fails: with [ws] a space only, a leading tab is not
    in the grammar, yet the parser accepts ["\t5"] ([\s] matches a tab,
    in every PCRE version). *)
Lemma window_option_tab_counterexample :
  ~ window_option is_space (String "009"%char "5") /\
  parse_result false never_oom (String "009"%char "5") ∅ = Some {| negated := 0; size := 5 |} /\
  parse_result true never_oom (String "009"%char "5") ∅ = Some {| negated := 0; size := 5 |}.
Proof.
  split; [|split; vm_compute; reflexivity].
  intros [w1 [bang [w2 [d [w3 [E [Hw1 [Hb [Hw2 [Hd [Hl _]]]]]]]]]]].
  destruct w1 as [|c1 w1].
  2:{ rewrite str_app_cons in E. injection E as <- _. simpl in Hw1. discriminate. }
  rewrite str_app_nil in E.
  destruct Hb as [-> | ->].
  2:{ rewrite str_app_cons, str_app_nil in E. discriminate. }
  rewrite str_app_nil in E.
  destruct w2 as [|c2 w2].
  2:{ rewrite str_app_cons in E. injection E as <- _. simpl in Hw2. discriminate. }
  rewrite str_app_nil in E.
  destruct d as [|c3 d]; [simpl in Hl; lia|].
  rewrite str_app_cons in E. injection E as <- _. simpl in Hd. discriminate.
Qed.

(** C5 (amended): a text whose C string is not in the grammar with
    [ws] the [\s] class of the linked PCRE (space, \t, \n, \f, \r, and
    \v from PCRE 8.34 on) fails at the [pcre_exec] check; the parser
    returns NULL and allocates nothing. *)
Theorem DetectWindowParse_syntax (vt : bool) (oom : heap -> bool) (s : string) (h : heap) :
  ~ window_option (pcre_space vt) (cstr s) ->
  DetectWindowParse_run vt oom s h = (ExitNoMatch, None, h).
Proof.
  intros Hg.
  destruct (pcre_exec_parse_regex_cases vt (cstr s)) as [Hn | [g1 [d [_ [_ [_ Hw]]]]]].
  - now apply DetectWindowParse_run_nomatch.
  - contradiction.
Qed.



(* ------------------------------------------------------------------ *)
(** ** [DetectWindowSetup] *)

(** C8: when the parser fails, [DetectWindowSetup] returns -1 and the
    signature's match list is unchanged; the heap is the one the parser
    left, so no [SigMatch] node was allocated either. *)
Theorem DetectWindowSetup_parse_failure {E : Type} (vt : bool) (oom : heap -> bool)
    (de_ctx : option E) (sg : Signature) (m : option SigMatch) (windowstr : string) (h : heap) :
  fst (DetectWindowParse vt oom windowstr h) = None ->
  fst (fst (DetectWindowSetup vt oom de_ctx sg m windowstr h)) = -1 /\
  snd (fst (DetectWindowSetup vt oom de_ctx sg m windowstr h)) = sg /\
  snd (DetectWindowSetup vt oom de_ctx sg m windowstr h) = snd (DetectWindowParse vt oom windowstr h).
Proof.
  unfold DetectWindowSetup. destruct (DetectWindowParse vt oom windowstr h) as [[p|] h1].
  - simpl. discriminate.
  - intros _. simpl. auto.
Qed.

(* ------------------------------------------------------------------ *)
(** ** [DetectWindowMatch] *)

Section MatchProofs.

Context {ThreadVars DetectEngineThreadCtx : Type}.

(** C1: on a TCP packet, a non-negated [DetectWindowData] matches exactly
    when the packet's window equals [size], a negated one exactly when it
    differs. *)
Theorem DetectWindowMatch_equality (t : option ThreadVars)
    (det_ctx : option DetectEngineThreadCtx) (p : Packet) (s : option Signature)
    (m : SigMatch) (wd : DetectWindowData) :
  sm_ctx m = Some wd -> PKT_IS_TCP p = true ->
  (negated wd = 0 ->
   DetectWindowMatch t det_ctx p s m = if size wd =? TCP_GET_WINDOW p then 1 else 0) /\
  (negated wd <> 0 ->
   DetectWindowMatch t det_ctx p s m = if size wd =? TCP_GET_WINDOW p then 0 else 1).
Proof.
  intros Hm Ht. unfold DetectWindowMatch. rewrite Hm, Ht. simpl.
  split; intros Hn.
  - rewrite (proj2 (Z.eqb_eq _ _) Hn). simpl.
    destruct (size wd =? TCP_GET_WINDOW p); reflexivity.
  - rewrite (proj2 (Z.eqb_neq _ _) Hn). simpl.
    destruct (size wd =? TCP_GET_WINDOW p); reflexivity.
Qed.

(** C2: a packet that is not TCP never matches, negated or not. *)
Theorem DetectWindowMatch_non_tcp (t : option ThreadVars)
    (det_ctx : option DetectEngineThreadCtx) (p : Packet) (s : option Signature)
    (m : SigMatch) :
  PKT_IS_TCP p = false -> DetectWindowMatch t det_ctx p s m = 0.
Proof.
  intros Ht. unfold DetectWindowMatch. rewrite Ht.
  destruct (sm_ctx m); reflexivity.
Qed.

(** C9: a NULL context never matches. *)
Theorem DetectWindowMatch_null_ctx (t : option ThreadVars)
    (det_ctx : option DetectEngineThreadCtx) (p : Packet) (s : option Signature)
    (m : SigMatch) :
  sm_ctx m = None -> DetectWindowMatch t det_ctx p s m = 0.
Proof. intros Hm. unfold DetectWindowMatch. now rewrite Hm. Qed.

(** C10: the result depends only on [negated] and [size] of the context
    (or its absence), on [PKT_IS_TCP] and on the TCP window. *)
Theorem DetectWindowMatch_depends_only
    (t t' : option ThreadVars) (det_ctx det_ctx' : option DetectEngineThreadCtx)
    (p p' : Packet) (s s' : option Signature) (m m' : SigMatch) :
  option_map (fun wd => (negated wd, size wd)) (sm_ctx m) =
    option_map (fun wd => (negated wd, size wd)) (sm_ctx m') ->
  PKT_IS_TCP p = PKT_IS_TCP p' ->
  TCP_GET_WINDOW p = TCP_GET_WINDOW p' ->
  DetectWindowMatch t det_ctx p s m = DetectWindowMatch t' det_ctx' p' s' m'.
Proof.
  intros Hm Ht Hw. unfold DetectWindowMatch. rewrite Ht, Hw.
  destruct (sm_ctx m) as [wd|], (sm_ctx m') as [wd'|]; simpl in Hm;
    try discriminate; [|reflexivity].
  injection Hm as Hn Hs. now rewrite Hn, Hs.
Qed.

End MatchProofs.

(* ------------------------------------------------------------------ *)
(** ** The theorems at concrete inputs *)

Lemma DetectWindowMatch_equality_witness :
  sm_ctx {| sm_type := DETECT_WINDOW; sm_ctx := Some {| negated := 1; size := 55455 |} |} =
    Some {| negated := 1; size := 55455 |} /\
  PKT_IS_TCP fixture_packet = true /\
  DetectWindowMatch (None : option unit) (None : option unit) fixture_packet None
    {| sm_type := DETECT_WINDOW; sm_ctx := Some {| negated := 1; size := 55455 |} |} = 1.
Proof.
  split; [reflexivity|]. split; [reflexivity|].
  destruct (DetectWindowMatch_equality (None : option unit) (None : option unit) fixture_packet None
              {| sm_type := DETECT_WINDOW; sm_ctx := Some {| negated := 1; size := 55455 |} |}
              {| negated := 1; size := 55455 |} eq_refl eq_refl) as [_ Hneg].
  rewrite Hneg by discriminate. reflexivity.
Defined.

Lemma DetectWindowMatch_non_tcp_witness :
  PKT_IS_TCP fixture_packet_non_tcp = false /\
  DetectWindowMatch (None : option unit) (None : option unit) fixture_packet_non_tcp None
    {| sm_type := DETECT_WINDOW; sm_ctx := Some {| negated := 1; size := 117 |} |} = 0.
Proof.
  split; [reflexivity|]. apply DetectWindowMatch_non_tcp. reflexivity.
Defined.

Lemma DetectWindowMatch_null_ctx_witness :
  DetectWindowMatch (None : option unit) (None : option unit) fixture_packet None
    {| sm_type := DETECT_WINDOW; sm_ctx := None |} = 0.
Proof. apply DetectWindowMatch_null_ctx. reflexivity. Defined.

Lemma DetectWindowMatch_depends_only_witness :
  DetectWindowMatch (None : option unit) (None : option unit) fixture_packet None
    {| sm_type := DETECT_WINDOW; sm_ctx := Some {| negated := 0; size := 117 |} |} =
  DetectWindowMatch (Some tt) (Some tt)
    {| pkt_proto := 6; tcph := Some {| th_sport := 22; th_dport := 1024; th_win := 117 |};
       payload_len := 0 |}
    (Some {| sig_id := 7; sig_match := [] |})
    {| sm_type := DETECT_OTHER 3; sm_ctx := Some {| negated := 0; size := 117 |} |}.
Proof. apply DetectWindowMatch_depends_only; reflexivity. Defined.


Lemma DetectWindowParse_out_of_range_witness :
  digit_string "1235402" /\ MAX_WINDOW_VALUE < decimal_value "1235402" /\
  fst (DetectWindowParse true never_oom "1235402" ∅) = None /\
  fst (fst (DetectWindowParse_run true never_oom "1235402" ∅)) = ExitOutOfRange.
Proof.
  assert (Hd : digit_string "1235402") by (split; [reflexivity | simpl; lia]).
  assert (Hv : MAX_WINDOW_VALUE < decimal_value "1235402") by (vm_compute; reflexivity).
  split; [exact Hd|]. split; [exact Hv|].
  destruct (DetectWindowParse_out_of_range true never_oom "1235402" ∅ Hd Hv) as [H1 H2].
  split; [exact H1 | exact (H2 (fun _ => eq_refl))].
Defined.

Lemma DetectWindowParse_result_range_witness :
  parse_result false never_oom "!35402" ∅ = Some {| negated := 1; size := 35402 |} /\
  0 <= 35402 <= MAX_WINDOW_VALUE /\ (1 = 0 \/ 1 = 1).
Proof.
  assert (Hp : parse_result false never_oom "!35402" ∅ = Some {| negated := 1; size := 35402 |})
    by (vm_compute; reflexivity).
  split; [exact Hp|].
  exact (DetectWindowParse_result_range false never_oom "!35402" ∅ _ Hp).
Defined.

(** Trailing garbage after the digits with a PCRE whose [\s] has \v, and
    a leading \v with one whose [\s] has not. *)
Lemma DetectWindowParse_syntax_witness :
  DetectWindowParse_run true never_oom "12 34" ∅ = (ExitNoMatch, None, ∅) /\
  DetectWindowParse_run false never_oom (String "011"%char "5") ∅ = (ExitNoMatch, None, ∅).
Proof.
  assert (H1 : ~ window_option (pcre_space true) (cstr "12 34")).
  { intros Hw. apply window_option_matched in Hw. vm_compute in Hw. discriminate. }
  assert (H2 : ~ window_option (pcre_space false) (cstr (String "011"%char "5"))).
  { intros Hw. apply window_option_matched in Hw. vm_compute in Hw. discriminate. }
  split.
  - exact (DetectWindowParse_syntax true never_oom "12 34" ∅ H1).
  - exact (DetectWindowParse_syntax false never_oom (String "011"%char "5") ∅ H2).
Defined.


Lemma DetectWindowSetup_parse_failure_witness :
  fst (DetectWindowParse false never_oom "70000" ∅) = None /\
  fst (fst (DetectWindowSetup false never_oom (None : option unit)
              {| sig_id := 1; sig_match := [] |} None "70000" ∅)) = -1 /\
  snd (fst (DetectWindowSetup false never_oom (None : option unit)
              {| sig_id := 1; sig_match := [] |} None "70000" ∅)) =
    {| sig_id := 1; sig_match := [] |} /\
  snd (DetectWindowSetup false never_oom (None : option unit)
         {| sig_id := 1; sig_match := [] |} None "70000" ∅) =
    snd (DetectWindowParse false never_oom "70000" ∅).
Proof.
  assert (Hp : fst (DetectWindowParse false never_oom "70000" ∅) = None)
    by (vm_compute; reflexivity).
  split; [exact Hp|].
  exact (DetectWindowSetup_parse_failure false never_oom (None : option unit)
           {| sig_id := 1; sig_match := [] |} None "70000" ∅ Hp).
Defined.

(* ------------------------------------------------------------------ *)
(** ** More of [DetectWindowParse] and [DetectWindowSetup] *)

(** Texts of the grammar, with whitespace and negation: when no
    allocation fails, the parsed value. *)
Theorem DetectWindowParse_grammar_value (vt : bool) (oom : heap -> bool) (s : string) (h : heap)
    (w1 bang w2 d w3 : string) :
  (forall h', oom h' = false) ->
  cstr s = (w1 ++ bang ++ w2 ++ d ++ w3)%string ->
  all_chars (pcre_space vt) w1 = true -> (bang = EmptyString \/ bang = "!") ->
  all_chars (pcre_space vt) w2 = true -> digit_string d ->
  all_chars (pcre_space vt) w3 = true ->
  decimal_value d <= MAX_WINDOW_VALUE ->
  parse_result vt oom s h = Some {| negated := if String.eqb bang "!" then 1 else 0;
                                    size := decimal_value d |}.
Proof. exact (parse_result_grammar vt oom s h w1 bang w2 d w3). Qed.

(** Texts of the grammar whose digit value exceeds [MAX_WINDOW_VALUE]
    give NULL, whatever whitespace or negation surrounds the digits; when
    no allocation fails, the range check is what rejects them. *)
Theorem DetectWindowParse_grammar_out_of_range (vt : bool) (oom : heap -> bool) (s : string)
    (h : heap) (w1 bang w2 d w3 : string) :
  cstr s = (w1 ++ bang ++ w2 ++ d ++ w3)%string ->
  all_chars (pcre_space vt) w1 = true -> (bang = EmptyString \/ bang = "!") ->
  all_chars (pcre_space vt) w2 = true -> digit_string d ->
  all_chars (pcre_space vt) w3 = true ->
  MAX_WINDOW_VALUE < decimal_value d ->
  fst (DetectWindowParse vt oom s h) = None /\
  ((forall h', oom h' = false) -> fst (fst (DetectWindowParse_run vt oom s h)) = ExitOutOfRange).
Proof.
  intros Hcs Hw1 Hb Hw2 Hd Hw3 Hv.
  destruct (parse_run_grammar vt oom s h w1 bang w2 d w3 Hcs Hw1 Hb Hw2 Hd Hw3)
    as [wd [a [_ [_ [_ [[Hr | [[Hv' _] | [_ Hr]]] Hnm]]]]]]; [| lia |].
  - unfold DetectWindowParse. rewrite Hr. split; [reflexivity|].
    intros Hmem. now contradiction (Hnm Hmem).
  - unfold DetectWindowParse. rewrite Hr. split; reflexivity.
Qed.

(** What the parser accepts: a text it parses is in the grammar (with
    the [\s] class of the linked PCRE as whitespace) with a digit value
    of at most [MAX_WINDOW_VALUE]; when no allocation fails, every such
    text parses. *)
Theorem DetectWindowParse_accepts_iff (vt : bool) (oom : heap -> bool) (s : string) (h : heap) :
  ((exists wd, parse_result vt oom s h = Some wd) ->
   exists w1 bang w2 d w3,
     cstr s = (w1 ++ bang ++ w2 ++ d ++ w3)%string /\
     all_chars (pcre_space vt) w1 = true /\ (bang = EmptyString \/ bang = "!") /\
     all_chars (pcre_space vt) w2 = true /\ digit_string d /\
     all_chars (pcre_space vt) w3 = true /\ decimal_value d <= MAX_WINDOW_VALUE) /\
  ((forall h', oom h' = false) ->
   (exists w1 bang w2 d w3,
     cstr s = (w1 ++ bang ++ w2 ++ d ++ w3)%string /\
     all_chars (pcre_space vt) w1 = true /\ (bang = EmptyString \/ bang = "!") /\
     all_chars (pcre_space vt) w2 = true /\ digit_string d /\
     all_chars (pcre_space vt) w3 = true /\ decimal_value d <= MAX_WINDOW_VALUE) ->
   exists wd, parse_result vt oom s h = Some wd).
Proof.
  split.
  - intros [wd Hp]. rewrite parse_result_run in Hp.
    destruct (pcre_exec_parse_regex_cases vt (cstr s)) as [Hn | [g1 [d0 [_ [_ [_ Hw]]]]]].
    { rewrite (DetectWindowParse_run_nomatch vt oom s h Hn) in Hp. discriminate. }
    destruct Hw as [w1 [bang [w2 [d [w3 [Hcs [Hw1 [Hb [Hw2 [Hd [Hl Hw3]]]]]]]]]]].
    exists w1, bang, w2, d, w3.
    destruct (parse_run_grammar vt oom s h w1 bang w2 d w3 Hcs Hw1 Hb Hw2 (conj Hd Hl) Hw3)
      as [p [a [_ [_ [_ [[Hr | [[Hv Hr] | [_ Hr]]] _]]]]]]; rewrite Hr in Hp; try discriminate.
    refine (conj Hcs (conj Hw1 (conj Hb (conj Hw2 (conj (conj Hd Hl) (conj Hw3 Hv)))))).
  - intros Hmem [w1 [bang [w2 [d [w3 [Hcs [Hw1 [Hb [Hw2 [Hd [Hw3 Hv]]]]]]]]]]].
    eexists. exact (parse_result_grammar vt oom s h w1 bang w2 d w3 Hmem Hcs Hw1 Hb Hw2 Hd Hw3 Hv).
Qed.

(** Ten or more digits after the optional whitespace and ['!'] are
    refused by the [pcre_exec] check, whatever follows them; the heap is
    left as it was. *)
Theorem DetectWindowParse_long_digit_run (vt : bool) (oom : heap -> bool) (s : string) (h : heap)
    (w1 bang w2 d w : string) :
  cstr s = (w1 ++ bang ++ w2 ++ d ++ w)%string ->
  all_chars (pcre_space vt) w1 = true -> (bang = EmptyString \/ bang = "!") ->
  all_chars (pcre_space vt) w2 = true -> all_chars is_digit d = true ->
  (9 < String.length d)%nat ->
  DetectWindowParse_run vt oom s h = (ExitNoMatch, None, h).
Proof.
  intros Hcs Hw1 Hb Hw2 Hd Hl. apply DetectWindowParse_run_nomatch.
  rewrite Hcs. now apply pcre_exec_long_digits.
Qed.

(** A successful parse adds exactly two blocks to the heap and changes
    nothing else: the returned [DetectWindowData] and the copy of the
    digit group, which is never freed; the copy of the ['!'] group is
    freed again. *)
Theorem DetectWindowParse_success_heap (vt : bool) (oom : heap -> bool) (s : string) (h : heap)
    (p : ptr) :
  fst (DetectWindowParse vt oom s h) = Some p ->
  exists wd a d, p <> a /\ h !! p = None /\ h !! a = None /\
    pr_group2 (pcre_exec_parse_regex vt (cstr s)) = Some d /\
    snd (DetectWindowParse vt oom s h) = <[p := BWindowData wd]> (<[a := BSubstring d]> h).
Proof. exact (parse_success_heap vt oom s h p). Qed.

(** A text rejected by the range check still leaves the copy of its
    digit group on the heap; the [DetectWindowData] block and the copy of
    the ['!'] group are freed. *)
Theorem DetectWindowParse_out_of_range_heap (vt : bool) (oom : heap -> bool) (s : string)
    (h : heap) :
  fst (fst (DetectWindowParse_run vt oom s h)) = ExitOutOfRange ->
  exists a d, h !! a = None /\
    pr_group2 (pcre_exec_parse_regex vt (cstr s)) = Some d /\
    snd (DetectWindowParse_run vt oom s h) = <[a := BSubstring d]> h.
Proof.
  intros Hx.
  destruct (pcre_exec_parse_regex_cases vt (cstr s)) as [Hn | [g1 [d [Hm _]]]].
  { rewrite (DetectWindowParse_run_nomatch vt oom s h Hn) in Hx. discriminate. }
  destruct (DetectWindowParse_run_match_heap vt oom s h g1 d Hm _ (to_uint32 (atoi d))
              eq_refl eq_refl)
    as [wd [a [_ [_ [Ha [[Hr | [[_ Hr] | [_ Hr]]] _]]]]]]; rewrite Hr in Hx |- *;
    try discriminate.
  exists a, d. rewrite Hm. now repeat split.
Qed.

(** The parser never frees or overwrites a block that was live before
    the call: the heap only grows. *)
Theorem DetectWindowParse_heap_grows (vt : bool) (oom : heap -> bool) (s : string) (h : heap) :
  h ⊆ snd (DetectWindowParse_run vt oom s h).
Proof.
  destruct (pcre_exec_parse_regex_cases vt (cstr s)) as [Hn | [g1 [d [Hm _]]]].
  { rewrite (DetectWindowParse_run_nomatch vt oom s h Hn). reflexivity. }
  destruct (DetectWindowParse_run_match_heap vt oom s h g1 d Hm _ (to_uint32 (atoi d))
              eq_refl eq_refl)
    as [wd [a [Hne [Hwd [Ha [[Hr | [[_ Hr] | [_ Hr]]] _]]]]]]; rewrite Hr; simpl.
  - reflexivity.
  - transitivity (<[a := BSubstring d]> h).
    + now apply insert_subseteq.
    + apply insert_subseteq. now rewrite lookup_insert_ne.
  - now apply insert_subseteq.
Qed.

(** When an allocation fails ([wd == NULL], or [pcre_get_substring]
    returning [PCRE_ERROR_NOMEMORY] for either group), the parser returns
    NULL and the heap is exactly as it was before the call: everything
    the call had allocated is freed. *)
Theorem DetectWindowParse_nomem (vt : bool) (oom : heap -> bool) (s : string) (h : heap) :
  fst (fst (DetectWindowParse_run vt oom s h)) = ExitNoMem ->
  DetectWindowParse_run vt oom s h = (ExitNoMem, None, h).
Proof.
  intros Hx.
  destruct (pcre_exec_parse_regex_cases vt (cstr s)) as [Hn | [g1 [d [Hm _]]]].
  { rewrite (DetectWindowParse_run_nomatch vt oom s h Hn) in Hx. discriminate. }
  destruct (DetectWindowParse_run_match_heap vt oom s h g1 d Hm _ (to_uint32 (atoi d))
              eq_refl eq_refl)
    as [wd [a [_ [_ [_ [[Hr | [[_ Hr] | [_ Hr]]] _]]]]]]; rewrite Hr in Hx |- *;
    try discriminate; reflexivity.
Qed.

(** When the option parses but [SigMatchAlloc] returns NULL,
    [DetectWindowSetup] returns -1, leaves the signature unchanged and
    frees the parsed [DetectWindowData]: no [DetectWindowData] block
    allocated by the call survives. *)
Theorem DetectWindowSetup_alloc_failure {E : Type} (vt : bool) (oom : heap -> bool)
    (de_ctx : option E) (sg : Signature) (m : option SigMatch) (s : string) (h : heap)
    (p : ptr) :
  fst (DetectWindowParse vt oom s h) = Some p ->
  oom (snd (DetectWindowParse vt oom s h)) = true ->
  DetectWindowSetup vt oom de_ctx sg m s h = (-1, sg, delete p (snd (DetectWindowParse vt oom s h))) /\
  no_new_window_data h (snd (DetectWindowSetup vt oom de_ctx sg m s h)).
Proof.
  intros Hp Ho.
  destruct (parse_success_heap vt oom s h p Hp) as [wd [a [d [Hpa [Hph [Hah [_ Hheap]]]]]]].
  assert (Hs : DetectWindowSetup vt oom de_ctx sg m s h =
                 (-1, sg, delete p (snd (DetectWindowParse vt oom s h)))).
  { unfold DetectWindowSetup, SigMatchAlloc, malloc.
    destruct (DetectWindowParse vt oom s h) as [r h1]. simpl in Hp, Ho |- *. subst r.
    now rewrite Ho. }
  split; [exact Hs|]. rewrite Hs. simpl. rewrite Hheap. intros q b Hq.
  destruct (decide (q = p)) as [->|Hqp]; [now rewrite lookup_delete_eq in Hq|].
  rewrite lookup_delete_ne, lookup_insert_ne in Hq by congruence.
  destruct (decide (q = a)) as [->|Hqa]; [now rewrite lookup_insert_eq in Hq|].
  now rewrite lookup_insert_ne in Hq.
Qed.

(** Setup followed by match: when no allocation fails, after
    [DetectWindowSetup] on a text of the grammar with value at most
    [MAX_WINDOW_VALUE], the appended match fires on a TCP packet exactly
    when the packet's window equals the digit value, or, with ['!'],
    exactly when it differs. *)
Theorem DetectWindowSetup_then_match {E T D : Type} (vt : bool) (oom : heap -> bool)
    (de_ctx : option E) (sg : Signature)
    (m : option SigMatch) (s : string) (h : heap)
    (t : option T) (det_ctx : option D) (p : Packet) (sg0 : option Signature)
    (w1 bang w2 d w3 : string) :
  (forall h', oom h' = false) ->
  cstr s = (w1 ++ bang ++ w2 ++ d ++ w3)%string ->
  all_chars (pcre_space vt) w1 = true -> (bang = EmptyString \/ bang = "!") ->
  all_chars (pcre_space vt) w2 = true -> digit_string d ->
  all_chars (pcre_space vt) w3 = true ->
  decimal_value d <= MAX_WINDOW_VALUE -> PKT_IS_TCP p = true ->
  exists sm,
    sig_match (snd (fst (DetectWindowSetup vt oom de_ctx sg m s h))) = (sig_match sg ++ [sm])%list /\
    DetectWindowMatch t det_ctx p sg0 sm =
      if String.eqb bang "!"
      then (if decimal_value d =? TCP_GET_WINDOW p then 0 else 1)
      else (if decimal_value d =? TCP_GET_WINDOW p then 1 else 0).
Proof.
  intros Hmem Hcs Hw1 Hb Hw2 Hd Hw3 Hv Htcp.
  pose proof (parse_result_grammar vt oom s h w1 bang w2 d w3 Hmem Hcs Hw1 Hb Hw2 Hd Hw3 Hv)
    as Hp.
  destruct (setup_success_helper vt oom de_ctx sg m s h _ Hmem Hp) as [_ ->].
  eexists. split; [reflexivity|].
  unfold DetectWindowMatch. simpl. rewrite Htcp. simpl.
  destruct (String.eqb bang "!"); destruct (decimal_value d =? TCP_GET_WINDOW p); reflexivity.
Qed.

(* ------------------------------------------------------------------ *)
(** ** These theorems at concrete inputs *)

Lemma DetectWindowParse_grammar_value_witness :
  parse_result false never_oom " ! 00117 " ∅ = Some {| negated := 1; size := 117 |}.
Proof.
  assert (Hcs : cstr " ! 00117 " = (" " ++ "!" ++ " " ++ "00117" ++ " ")%string)
    by (vm_compute; reflexivity).
  assert (Hd : digit_string "00117") by (split; [reflexivity | simpl; lia]).
  exact (DetectWindowParse_grammar_value false never_oom " ! 00117 " ∅ " " "!" " " "00117" " "
           (fun _ => eq_refl) Hcs eq_refl (or_intror eq_refl) eq_refl Hd eq_refl
           ltac:(vm_compute; discriminate)).
Defined.

Lemma DetectWindowParse_grammar_out_of_range_witness :
  fst (DetectWindowParse true never_oom " 70000 " ∅) = None /\
  fst (fst (DetectWindowParse_run true never_oom " 70000 " ∅)) = ExitOutOfRange.
Proof.
  assert (Hcs : cstr " 70000 " = (" " ++ "" ++ "" ++ "70000" ++ " ")%string)
    by (vm_compute; reflexivity).
  assert (Hd : digit_string "70000") by (split; [reflexivity | simpl; lia]).
  destruct (DetectWindowParse_grammar_out_of_range true never_oom _ ∅ " " "" "" "70000" " " Hcs
              eq_refl (or_introl eq_refl) eq_refl Hd eq_refl ltac:(vm_compute; reflexivity))
    as [H1 H2].
  split; [exact H1 | exact (H2 (fun _ => eq_refl))].
Defined.

(** A leading \v, with a PCRE whose [\s] has it. *)
Lemma DetectWindowParse_accepts_iff_witness :
  exists wd, parse_result true never_oom (String "011"%char "117") ∅ = Some wd.
Proof.
  assert (Hd : digit_string "117") by (split; [reflexivity | simpl; lia]).
  apply (proj2 (DetectWindowParse_accepts_iff true never_oom (String "011"%char "117") ∅)
           (fun _ => eq_refl)).
  exists (String "011"%char ""), "", "", "117", "".
  split; [vm_compute; reflexivity|]. split; [reflexivity|]. split; [now left|].
  split; [reflexivity|]. split; [exact Hd|]. split; [reflexivity|]. vm_compute; discriminate.
Defined.

Lemma DetectWindowParse_long_digit_run_witness :
  DetectWindowParse_run false (fun _ => true) "!0000000001" ∅ = (ExitNoMatch, None, ∅).
Proof.
  assert (Hcs : cstr "!0000000001" = ("" ++ "!" ++ "" ++ "0000000001" ++ "")%string)
    by (vm_compute; reflexivity).
  exact (DetectWindowParse_long_digit_run false (fun _ => true) _ ∅ "" "!" "" "0000000001" ""
           Hcs eq_refl (or_intror eq_refl) eq_refl eq_refl ltac:(simpl; lia)).
Defined.

Lemma DetectWindowParse_success_heap_witness :
  exists wd a d, 1%positive <> a /\ (∅ : heap) !! 1%positive = None /\ (∅ : heap) !! a = None /\
    pr_group2 (pcre_exec_parse_regex false (cstr "!35402")) = Some d /\
    snd (DetectWindowParse false never_oom "!35402" ∅) =
      <[1%positive := BWindowData wd]> (<[a := BSubstring d]> ∅).
Proof.
  assert (Hp : fst (DetectWindowParse false never_oom "!35402" ∅) = Some 1%positive)
    by (vm_compute; reflexivity).
  exact (DetectWindowParse_success_heap false never_oom "!35402" ∅ 1%positive Hp).
Defined.

Lemma DetectWindowParse_out_of_range_heap_witness :
  exists a d, (∅ : heap) !! a = None /\
    pr_group2 (pcre_exec_parse_regex false (cstr "1235402")) = Some d /\
    snd (DetectWindowParse_run false never_oom "1235402" ∅) = <[a := BSubstring d]> ∅.
Proof.
  assert (Hx : fst (fst (DetectWindowParse_run false never_oom "1235402" ∅)) = ExitOutOfRange)
    by (vm_compute; reflexivity).
  exact (DetectWindowParse_out_of_range_heap false never_oom "1235402" ∅ Hx).
Defined.

(** [malloc] fails once block 1 ([wd]) is live: the copy of the ['!']
    group is not made. *)
Lemma DetectWindowParse_nomem_witness :
  DetectWindowParse_run false (fun h => match h !! 1%positive with Some _ => true | None => false end)
    "!117" ∅ = (ExitNoMem, None, ∅).
Proof.
  assert (Hx : fst (fst (DetectWindowParse_run false
                           (fun h => match h !! 1%positive with Some _ => true | None => false end)
                           "!117" ∅)) = ExitNoMem)
    by (vm_compute; reflexivity).
  exact (DetectWindowParse_nomem false _ "!117" ∅ Hx).
Defined.

(** [malloc] fails once block 3 (the copy of the digits) is live: the
    parse succeeds and [SigMatchAlloc] fails. *)
Lemma DetectWindowSetup_alloc_failure_witness :
  DetectWindowSetup false (fun h => match h !! 3%positive with Some _ => true | None => false end)
    (None : option unit) {| sig_id := 1; sig_match := [] |} None "117" ∅ =
    (-1, {| sig_id := 1; sig_match := [] |},
     delete 1%positive
       (snd (DetectWindowParse false
               (fun h => match h !! 3%positive with Some _ => true | None => false end) "117" ∅))) /\
  no_new_window_data ∅
    (snd (DetectWindowSetup false
            (fun h => match h !! 3%positive with Some _ => true | None => false end)
            (None : option unit) {| sig_id := 1; sig_match := [] |} None "117" ∅)).
Proof.
  assert (Hp : fst (DetectWindowParse false
                      (fun h => match h !! 3%positive with Some _ => true | None => false end)
                      "117" ∅) = Some 1%positive)
    by (vm_compute; reflexivity).
  assert (Ho : (fun h : heap => match h !! 3%positive with Some _ => true | None => false end)
                 (snd (DetectWindowParse false
                         (fun h => match h !! 3%positive with Some _ => true | None => false end)
                         "117" ∅)) = true)
    by (vm_compute; reflexivity).
  exact (DetectWindowSetup_alloc_failure false _ (None : option unit)
           {| sig_id := 1; sig_match := [] |} None "117" ∅ 1%positive Hp Ho).
Defined.

Lemma DetectWindowSetup_then_match_witness :
  exists sm,
    sig_match (snd (fst (DetectWindowSetup false never_oom (None : option unit)
                           {| sig_id := 1; sig_match := [] |} None "! 117" ∅))) = ([] ++ [sm])%list /\
    DetectWindowMatch (None : option unit) (None : option unit) fixture_packet None sm =
      if String.eqb "!" "!"
      then (if decimal_value "117" =? TCP_GET_WINDOW fixture_packet then 0 else 1)
      else (if decimal_value "117" =? TCP_GET_WINDOW fixture_packet then 1 else 0).
Proof.
  assert (Hcs : cstr "! 117" = ("" ++ "!" ++ " " ++ "117" ++ "")%string)
    by (vm_compute; reflexivity).
  assert (Hd : digit_string "117") by (split; [reflexivity | simpl; lia]).
  exact (DetectWindowSetup_then_match false never_oom (None : option unit)
           {| sig_id := 1; sig_match := [] |}
           None "! 117" ∅ (None : option unit) (None : option unit) fixture_packet None
           "" "!" " " "117" "" (fun _ => eq_refl) Hcs eq_refl (or_intror eq_refl) eq_refl Hd
           eq_refl ltac:(vm_compute; discriminate) eq_refl).
Defined.
